(** * Verification of the macOS USB watcher ([src/watcher/macos.rs])

    A shallow embedding of [MacosUsbWatcher::start_monitoring] and of its two
    property helpers.  The IOKit / CoreFoundation calls are modelled by a
    [Registry] of native responses, the Tokio channel by a bounded queue with
    a receiver flag, and the effects of the [unsafe] block by a small
    state-and-outcome monad that records every native acquire and release. *)

From Stdlib Require Import ZArith NArith List String Ascii Bool Lia.
From Stdlib Require Import DecimalN.
Import ListNotations.

Open Scope Z_scope.

(* ------------------------------------------------------------------------- *)
(** ** Rust formatting primitives *)

(** [Result<T, E>]. *)
Inductive result (A E : Type) : Type :=
| Ok (a : A)
| Err (e : E).
Arguments Ok {A E} a.
Arguments Err {A E} e.

(** Decimal digits as printed by [Display] for integers. *)
Fixpoint string_of_uint (u : Decimal.uint) : string :=
  match u with
  | Decimal.Nil => EmptyString
  | Decimal.D0 u => String "0" (string_of_uint u)
  | Decimal.D1 u => String "1" (string_of_uint u)
  | Decimal.D2 u => String "2" (string_of_uint u)
  | Decimal.D3 u => String "3" (string_of_uint u)
  | Decimal.D4 u => String "4" (string_of_uint u)
  | Decimal.D5 u => String "5" (string_of_uint u)
  | Decimal.D6 u => String "6" (string_of_uint u)
  | Decimal.D7 u => String "7" (string_of_uint u)
  | Decimal.D8 u => String "8" (string_of_uint u)
  | Decimal.D9 u => String "9" (string_of_uint u)
  end.

(** [format!("{}", n)] for an unsigned integer. *)
Definition fmt_unsigned (n : Z) : string :=
  string_of_uint (N.to_uint (Z.to_N n)).

(** [format!("{}", n)] for a signed integer ([kern_return_t] is [i32]). *)
Definition fmt_signed (n : Z) : string :=
  if n <? 0 then String "-" (fmt_unsigned (- n)) else fmt_unsigned n.

(** One lowercase hexadecimal digit, as [{:x}] prints it. *)
Definition hex_char (d : N) : ascii :=
  if (d <? 10)%N then ascii_of_N (48 + d) else ascii_of_N (87 + d).

Fixpoint lower_hex_aux (fuel : nat) (n : N) (acc : string) : string :=
  match fuel with
  | O => acc
  | S fuel' =>
      let acc' := String (hex_char (n mod 16)) acc in
      if (n <? 16)%N then acc' else lower_hex_aux fuel' (n / 16) acc'
  end.

(** [format!("{:x}", n)]: lowercase hexadecimal without leading zeros. *)
Definition lower_hex (n : N) : string :=
  lower_hex_aux (S (N.size_nat n)) n EmptyString.

Fixpoint zeros (k : nat) : string :=
  match k with
  | O => EmptyString
  | S k' => String "0" (zeros k')
  end.

(** Zero padding to a minimal width, the [0w] of a format spec. *)
Definition pad_zeros (width : nat) (s : string) : string :=
  zeros (width - String.length s) ++ s.

(** [format!("{:04x}", id)] for [id : u16]. *)
Definition fmt_04x (id : Z) : string :=
  pad_zeros 4 (lower_hex (Z.to_N id)).

(** A character matched by [[0-9a-f]]. *)
Definition is_lower_hex_digit (c : ascii) : bool :=
  let n := nat_of_ascii c in
  (Nat.leb 48 n && Nat.leb n 57) || (Nat.leb 97 n && Nat.leb n 102).

Fixpoint all_chars (p : ascii -> bool) (s : string) : bool :=
  match s with
  | EmptyString => true
  | String c s' => p c && all_chars p s'
  end.

(* ------------------------------------------------------------------------- *)
(** ** [std::str::from_utf8] and [str::trim_end_matches('\0')] *)

Definition byte_in (lo hi : N) (c : ascii) : bool :=
  let b := N_of_ascii c in (lo <=? b)%N && (b <=? hi)%N.

Definition is_cont (c : ascii) : bool := byte_in 128 191 c.

(** The validation of [core::str::from_utf8]: shortest forms only, no
    surrogates, nothing above U+10FFFF. *)
Fixpoint utf8_valid (s : string) : bool :=
  match s with
  | EmptyString => true
  | String b rest =>
      if byte_in 0 127 b then utf8_valid rest
      else if byte_in 194 223 b then
        match rest with
        | String c1 r => is_cont c1 && utf8_valid r
        | _ => false
        end
      else if byte_in 224 239 b then
        match rest with
        | String c1 (String c2 r) =>
            (if byte_in 224 224 b then byte_in 160 191 c1
             else if byte_in 237 237 b then byte_in 128 159 c1
             else is_cont c1)
            && is_cont c2 && utf8_valid r
        | _ => false
        end
      else if byte_in 240 244 b then
        match rest with
        | String c1 (String c2 (String c3 r)) =>
            (if byte_in 240 240 b then byte_in 144 191 c1
             else if byte_in 244 244 b then byte_in 128 143 c1
             else is_cont c1)
            && is_cont c2 && is_cont c3 && utf8_valid r
        | _ => false
        end
      else false
  end.

(** [std::str::from_utf8(bytes).ok()]; a byte string is a [string] here. *)
Definition from_utf8 (bytes : string) : option string :=
  if utf8_valid bytes then Some bytes else None.

Definition nul : ascii := ascii_of_nat 0.

Fixpoint rev_string (s : string) (acc : string) : string :=
  match s with
  | EmptyString => acc
  | String c s' => rev_string s' (String c acc)
  end.

Fixpoint drop_nuls (s : string) : string :=
  match s with
  | String c s' => if Ascii.eqb c nul then drop_nuls s' else s
  | EmptyString => EmptyString
  end.

(** [s.trim_end_matches('\0')]. *)
Definition trim_end_nul (s : string) : string :=
  rev_string (drop_nuls (rev_string s EmptyString)) EmptyString.

(** A Rust byte literal [b"...\0"]. *)
Definition c_literal (s : string) : string := s ++ String nul EmptyString.

(* ------------------------------------------------------------------------- *)
(** ** Data model *)

(** Modelled from the spec: [crate::device_info::DeviceEventType], which is not
    part of the sources; the spec names its variants [Connected] and
    [Disconnected]. *)
Inductive DeviceEventType := Connected | Disconnected.

(** Modelled from the spec: [crate::device_info::DeviceHandle], which is not
    part of the sources; only the macOS variant is built by this adapter. *)
Inductive DeviceHandle := Macos (device_id : string).

(** [crate::device_info::UsbDeviceInfo] as built in [start_monitoring]; the
    [chrono::DateTime<Utc>] timestamp is an instant in [Z]. *)
Record UsbDeviceInfo := mkUsbDeviceInfo {
  device_name : string;
  vendor_id : string;
  product_id : string;
  serial_number : option string;
  timestamp : Z;
  event_type : DeviceEventType;
  device_handle : DeviceHandle
}.

(** [io_object_t] / [io_iterator_t] (a [u32] port name) and [kern_return_t]
    (an [i32]). *)
Definition io_object_t := Z.
Definition kern_return_t := Z.

(** The CoreFoundation object a registry property is returned as.  IOKit
    numbers ([OSNumber]) are integers. *)
Inductive CFValue :=
| CFNumber (v : Z)
| CFString (s : string)
| CFOther.

(** The native answers of IOKit for one pass. *)
Record Registry := mkRegistry {
  (** [IOServiceMatching] returns a non-null dictionary *)
  matching_ok : bool;
  (** status returned by [IOServiceGetMatchingServices] *)
  get_services_kr : kern_return_t;
  (** value returned by the [k]-th call of [IOIteratorNext] ([0] ends) *)
  iterator_next : nat -> io_object_t;
  (** [IORegistryEntryGetName] then [CStr::to_string_lossy]: [None] when the
      call returns a non-zero status *)
  entry_name : io_object_t -> option string;
  (** [IORegistryEntryCreateCFProperty]: [None] is a null reference *)
  entry_property : io_object_t -> string -> option CFValue
}.

(** The Tokio bounded channel seen from the sender: capacity, queued values
    and whether the receiver is still alive. *)
Record Chan := mkChan {
  cap : nat;
  queue : list UsbDeviceInfo;
  rx_open : bool
}.

(** What the consumer does while a send waits for capacity. *)
Inductive ConsumerAct := Recv | CloseRx.

(** Native resources with a reference the adapter must release. *)
Inductive NativeRes :=
| RMatchingDict
| RIterator
| RDevice (d : io_object_t)
| RKeyString (key : string)
| RProperty (d : io_object_t) (key : string).

Inductive NativeOp := Acquire (r : NativeRes) | Release (r : NativeRes).

(** Outcome of one [tx.send(info).await]. *)
Inductive SendStatus :=
| Delivered           (** [Ok(())] *)
| Dropped             (** [Err(SendError)]: receiver closed, discarded by [let _] *)
| Waiting.            (** still awaiting capacity *)

Record St := mkSt {
  ops : list NativeOp;                         (** native acquires / releases *)
  sent : list (UsbDeviceInfo * SendStatus);    (** send attempts, in order *)
  chan : Chan;
  consumer : list ConsumerAct;
  next_calls : nat;                            (** calls of [IOIteratorNext] *)
  clock_calls : nat                            (** calls of [Utc::now] *)
}.

Definition init_state (ch : Chan) (cs : list ConsumerAct) : St :=
  mkSt [] [] ch cs 0 0.

(* ------------------------------------------------------------------------- *)
(** ** The effect monad of the [unsafe] block *)

(** [Ret]: the code continues; [Blocked]: suspended at an [.await] that can
    make no progress; [Fault]: a native call used outside its contract
    (undefined behaviour); [NoFuel]: the loop bound of the model ran out. *)
Inductive Res (A : Type) :=
| Ret (a : A)
| Blocked
| Fault
| NoFuel.
Arguments Ret {A} a.
Arguments Blocked {A}.
Arguments Fault {A}.
Arguments NoFuel {A}.

Definition M (A : Type) := St -> Res A * St.

Definition ret {A} (a : A) : M A := fun s => (Ret a, s).

Definition bind {A B} (m : M A) (k : A -> M B) : M B :=
  fun s =>
    match m s with
    | (Ret a, s') => k a s'
    | (Blocked, s') => (Blocked, s')
    | (Fault, s') => (Fault, s')
    | (NoFuel, s') => (NoFuel, s')
    end.

Notation "x <- m ;; k" := (bind m (fun x => k))
  (at level 61, m at next level, right associativity).
Notation "m ;;; k" := (bind m (fun _ => k))
  (at level 61, right associativity).

Definition fault {A} : M A := fun s => (Fault, s).
Definition out_of_fuel {A} : M A := fun s => (NoFuel, s).

Definition log_op (o : NativeOp) : M unit :=
  fun s => (Ret tt, mkSt ((ops s ++ [o])%list) (sent s) (chan s) (consumer s)
                         (next_calls s) (clock_calls s)).

(** [CFRelease] / [IOObjectRelease] / a CoreFoundation wrapper's [Drop]. *)
Definition release (r : NativeRes) : M unit := log_op (Release r).

(** [CFNumberGetValue(n, kCFNumberSInt16Type, &mut value as *mut u16)]:
    [true] when the number is exactly representable as an [i16], whose bits
    land in the [u16]; otherwise [false] with the truncated value.  On an
    object that is not a [CFNumber] the call is outside its contract. *)
Definition cf_number_get_value_sint16 (v : CFValue) : M (bool * Z) :=
  match v with
  | CFNumber z => ret ((-32768 <=? z) && (z <=? 32767), z mod 65536)
  | _ => fault
  end.

(** [CFString::wrap_under_create_rule(r).to_string()]; on an object that is
    not a [CFString] the conversion is outside its contract. *)
Definition cf_string_to_string (v : CFValue) : M string :=
  match v with
  | CFString s => ret s
  | _ => fault
  end.

(** [tx.send(v).await] on a bounded Tokio channel: an error at once when the
    receiver is gone, a push when there is room, otherwise wait for the
    consumer to take a value or to close. *)
Fixpoint chan_send (v : UsbDeviceInfo) (ch : Chan) (cs : list ConsumerAct)
  : SendStatus * Chan * list ConsumerAct :=
  if negb (rx_open ch) then (Dropped, ch, cs)
  else if Nat.ltb (List.length (queue ch)) (cap ch)
  then (Delivered, mkChan (cap ch) ((queue ch ++ [v])%list) true, cs)
  else match cs with
       | [] => (Waiting, ch, [])
       | Recv :: cs' => chan_send v (mkChan (cap ch) (tl (queue ch)) true) cs'
       | CloseRx :: cs' => chan_send v (mkChan (cap ch) (queue ch) false) cs'
       end.

(** [let _ = self.tx.send(info).await;] *)
Definition tx_send (info : UsbDeviceInfo) : M unit :=
  fun s =>
    match chan_send info (chan s) (consumer s) with
    | (st, ch, cs) =>
        let s' := mkSt (ops s) ((sent s ++ [(info, st)])%list) ch cs
                       (next_calls s) (clock_calls s) in
        match st with
        | Waiting => (Blocked, s')
        | _ => (Ret tt, s')
        end
    end.

(* ------------------------------------------------------------------------- *)
(** ** [MacosUsbWatcher] *)

Section Watcher.

(** The IOKit responses of the pass and the UTC clock ([k]-th call of
    [chrono::Utc::now]). *)
Variable reg : Registry.
Variable utc_now : nat -> Z.

(** [IOServiceMatching(b"IOUSBDevice\0")]: a new dictionary, or null. *)
Definition io_service_matching : M bool :=
  if matching_ok reg then log_op (Acquire RMatchingDict) ;;; ret true
  else ret false.

(** [IOServiceGetMatchingServices(kIOMasterPortDefault, dict, &mut iter)]:
    consumes the dictionary reference in every case and hands out an
    iterator on success. *)
Definition io_service_get_matching_services : M kern_return_t :=
  release RMatchingDict ;;;
  let kr := get_services_kr reg in
  if kr =? 0 then log_op (Acquire RIterator) ;;; ret kr else ret kr.

(** [IOIteratorNext(iter)]: a new object reference, or [0] at the end. *)
Definition io_iterator_next : M io_object_t :=
  fun s =>
    let d := iterator_next reg (next_calls s) in
    let s' := mkSt (ops s) (sent s) (chan s) (consumer s)
                   (S (next_calls s)) (clock_calls s) in
    if d =? 0 then (Ret d, s')
    else (log_op (Acquire (RDevice d)) ;;; ret d) s'.

(** [CFString::from_static_string(key)]: a CFString owned by a Rust value. *)
Definition cf_string_from_static (key : string) : M unit :=
  log_op (Acquire (RKeyString key)).

(** [IORegistryEntryCreateCFProperty(device, key, null, 0)]: a new reference
    to the property (create rule), or null. *)
Definition io_registry_entry_create_cf_property (device : io_object_t)
  (key : string) : M (option CFValue) :=
  match entry_property reg device key with
  | Some v => log_op (Acquire (RProperty device key)) ;;; ret (Some v)
  | None => ret None
  end.

(** [IORegistryEntryGetName(device, buf)] then [to_string_lossy]. *)
Definition io_registry_entry_get_name (device : io_object_t) : M (option string) :=
  ret (entry_name reg device).

(** [chrono::Utc::now()]. *)
Definition utc_now_m : M Z :=
  fun s => (Ret (utc_now (clock_calls s)),
            mkSt (ops s) (sent s) (chan s) (consumer s) (next_calls s)
                 (S (clock_calls s))).

(** [MacosUsbWatcher::get_device_property_u16]. *)
Definition get_device_property_u16 (device : io_object_t)
  (property_name : string) : M (option Z) :=
  match from_utf8 property_name with
  | None => ret None
  | Some name =>
      let key := trim_end_nul name in
      cf_string_from_static key ;;;
      prop <- io_registry_entry_create_cf_property device key ;;
      r <- match prop with
           | None => ret None
           | Some cf_number =>
               got <- cf_number_get_value_sint16 cf_number ;;
               let (ok, value) := got in
               if ok then release (RProperty device key) ;;; ret (Some value)
               else release (RProperty device key) ;;; ret None
           end ;;
      release (RKeyString key) ;;;   (* [prop_name] dropped *)
      ret r
  end.

(** [MacosUsbWatcher::get_device_property_string]. *)
Definition get_device_property_string (device : io_object_t)
  (property_name : string) : M (option string) :=
  match from_utf8 property_name with
  | None => ret None
  | Some name =>
      let key := trim_end_nul name in
      cf_string_from_static key ;;;
      prop <- io_registry_entry_create_cf_property device key ;;
      r <- match prop with
           | None => ret None
           | Some cf_string =>
               rust_string <- cf_string_to_string cf_string ;;
               (* the wrapping [CFString] is dropped at the end of the [let] *)
               release (RProperty device key) ;;;
               if String.eqb rust_string EmptyString then ret None
               else ret (Some rust_string)
           end ;;
      release (RKeyString key) ;;;   (* [prop_name] dropped *)
      ret r
  end.

(** The [UsbDeviceInfo] literal of the loop body. *)
Definition mk_info (device : io_object_t) (device_name : string)
  (vendor_id product_id : string) (serial_number : option string)
  (now : Z) : UsbDeviceInfo :=
  {| device_name := device_name;
     vendor_id := vendor_id;
     product_id := product_id;
     serial_number := serial_number;
     timestamp := now;
     event_type := Connected;
     device_handle := Macos (fmt_unsigned device) |}.

(** [.map(|id| format!("{:04x}", id)).unwrap_or_else(|| "0000".to_string())] *)
Definition id_or_default (o : option Z) : string :=
  match o with
  | Some id => fmt_04x id
  | None => "0000"%string
  end.

(** The body of [loop { ... }] for one record. *)
Definition process_device (device : io_object_t) : M unit :=
  name <- io_registry_entry_get_name device ;;
  let device_name :=
    match name with
    | Some n => n
    | None => "Unknown USB Device"%string
    end in
  vendor <- get_device_property_u16 device (c_literal "idVendor") ;;
  let vendor_id := id_or_default vendor in
  product <- get_device_property_u16 device (c_literal "idProduct") ;;
  let product_id := id_or_default product in
  serial_number <- get_device_property_string device (c_literal "USB Serial Number") ;;
  now <- utc_now_m ;;
  let info := mk_info device device_name vendor_id product_id serial_number now in
  tx_send info ;;;
  release (RDevice device).

(** [loop { let device = IOIteratorNext(iter); if device == 0 { break; } ... }],
    run for at most [fuel] iterations. *)
Fixpoint monitor_loop (fuel : nat) : M unit :=
  match fuel with
  | O => out_of_fuel
  | S fuel' =>
      device <- io_iterator_next ;;
      if device =? 0 then ret tt
      else process_device device ;;; monitor_loop fuel'
  end.

(** [MacosUsbWatcher::start_monitoring]. *)
Definition start_monitoring (fuel : nat) : M (result unit string) :=
  matching_dict <- io_service_matching ;;
  if negb matching_dict then
    ret (Err "Failed to create matching dictionary for IOUSBDevice"%string)
  else
    kr <- io_service_get_matching_services ;;
    if negb (kr =? 0) then
      ret (Err ("IOServiceGetMatchingServices failed: " ++ fmt_signed kr)%string)
    else
      monitor_loop fuel ;;;
      release RIterator ;;;
      ret (Ok tt).

End Watcher.

(** One pass from a fresh state. *)
Definition run (reg : Registry) (clock : nat -> Z) (fuel : nat) (ch : Chan)
  (cs : list ConsumerAct) : Res (result unit string) * St :=
  start_monitoring reg clock fuel (init_state ch cs).

(* ------------------------------------------------------------------------- *)
(** ** Specification vocabulary *)

(** Scoped acquisition: every acquire is matched by one later release of the
    same resource, properly nested. *)
Inductive Nested : list NativeOp -> Prop :=
| nested_nil : Nested []
| nested_app l1 l2 : Nested l1 -> Nested l2 -> Nested (l1 ++ l2)
| nested_scope r l : Nested l -> Nested (Acquire r :: l ++ [Release r]).

Definition NativeRes_eq_dec (x y : NativeRes) : {x = y} + {x <> y}.
Proof. decide equality; first [apply Z.eq_dec | apply string_dec]. Defined.

Definition NativeOp_eq_dec (x y : NativeOp) : {x = y} + {x <> y}.
Proof. decide equality; apply NativeRes_eq_dec. Defined.

Definition acquires (r : NativeRes) (l : list NativeOp) : nat :=
  count_occ NativeOp_eq_dec l (Acquire r).
Definition releases (r : NativeRes) (l : list NativeOp) : nat :=
  count_occ NativeOp_eq_dec l (Release r).

(** Exactly four lowercase hexadecimal digits. *)
Definition hex4 (s : string) : bool :=
  Nat.eqb (String.length s) 4 && all_chars is_lower_hex_digit s.

(** [CFNumberGetValue] to [kCFNumberSInt16Type] succeeds. *)
Definition fits_sint16 (z : Z) : bool := (-32768 <=? z) && (z <=? 32767).

(** The property types the two helpers hand to CoreFoundation correctly. *)
Definition number_or_absent (o : option CFValue) : bool :=
  match o with None | Some (CFNumber _) => true | _ => false end.
Definition string_or_absent (o : option CFValue) : bool :=
  match o with None | Some (CFString _) => true | _ => false end.

(** The three properties of every device read by [start_monitoring] have the
    types the code assumes. *)
Definition props_well_typed (reg : Registry) : Prop :=
  forall d,
    number_or_absent (entry_property reg d "idVendor") = true /\
    number_or_absent (entry_property reg d "idProduct") = true /\
    string_or_absent (entry_property reg d "USB Serial Number") = true.

(** Only the native log changed between two states. *)
Definition frame (s s' : St) : Prop :=
  sent s' = sent s /\ chan s' = chan s /\ consumer s' = consumer s /\
  next_calls s' = next_calls s /\ clock_calls s' = clock_calls s.

(** The error values of [start_monitoring]. *)
Definition init_error : string :=
  "Failed to create matching dictionary for IOUSBDevice".
Definition enumeration_error (kr : kern_return_t) : string :=
  "IOServiceGetMatchingServices failed: " ++ fmt_signed kr.

(** The value [get_device_property_u16] yields for a well-typed property. *)
Definition u16_value (reg : Registry) (d : io_object_t) (key : string) : option Z :=
  match entry_property reg d key with
  | Some (CFNumber z) => if fits_sint16 z then Some (z mod 65536) else None
  | _ => None
  end.

(** The value [get_device_property_string] yields for a well-typed property. *)
Definition string_value (reg : Registry) (d : io_object_t) (key : string)
  : option string :=
  match entry_property reg d key with
  | Some (CFString t) => if String.eqb t EmptyString then None else Some t
  | _ => None
  end.

(** The three properties of [d] have the types the code assumes. *)
Definition device_props_ok (reg : Registry) (d : io_object_t) : bool :=
  number_or_absent (entry_property reg d "idVendor") &&
  number_or_absent (entry_property reg d "idProduct") &&
  string_or_absent (entry_property reg d "USB Serial Number").

(** The event the loop body builds for [d] when its properties are
    well-typed. *)
Definition expected_info (reg : Registry) (d : io_object_t) (now : Z)
  : UsbDeviceInfo :=
  mk_info d
    (match entry_name reg d with
     | Some n => n
     | None => "Unknown USB Device"%string
     end)
    (id_or_default (u16_value reg d "idVendor"))
    (id_or_default (u16_value reg d "idProduct"))
    (string_value reg d "USB Serial Number")
    now.

(** The state in which the loop starts. *)
Definition loop_start (ch : Chan) (cs : list ConsumerAct) : St :=
  mkSt [Acquire RMatchingDict; Release RMatchingDict; Acquire RIterator]
       [] ch cs 0 0.

(* ------------------------------------------------------------------------- *)
(** ** Concrete passes *)

Definition clock0 (k : nat) : Z := Z.of_nat k.

(** The two-record registry of the spec: record [1] is a "Widget" with
    vendor 0x1234, product 0x5678 and serial "ABC123"; record [2] has no
    properties and no name. *)
Definition reg_ab : Registry :=
  mkRegistry true 0
    (fun k => match k with O => 1 | S O => 2 | _ => 0 end)
    (fun d => if d =? 1 then Some "Widget"%string else None)
    (fun d key =>
       if d =? 1 then
         if String.eqb key "idVendor" then Some (CFNumber 4660)
         else if String.eqb key "idProduct" then Some (CFNumber 22136)
         else if String.eqb key "USB Serial Number" then Some (CFString "ABC123")
         else None
       else None).

(** A registry whose lookup fails with [kIOReturnError]. *)
Definition reg_lookup_fails : Registry :=
  mkRegistry true (-536870212) (fun _ => 0) (fun _ => None) (fun _ _ => None).

(** One record whose "idVendor" property is a CFString. *)
Definition reg_vendor_string : Registry :=
  mkRegistry true 0
    (fun k => match k with O => 7 | _ => 0 end)
    (fun _ => None)
    (fun d key =>
       if (d =? 7) && String.eqb key "idVendor" then Some (CFString "1234")
       else None).

(** Two records without properties. *)
Definition reg_two : Registry :=
  mkRegistry true 0
    (fun k => match k with O => 1 | S O => 2 | _ => 0 end)
    (fun _ => None) (fun _ _ => None).

(** An event already waiting in the queue. *)
Definition queued_info : UsbDeviceInfo :=
  mk_info 9 "Hub" "05ac" "1234" None 0.

(** A channel of capacity 1 that is full, with a live receiver. *)
Definition full_chan : Chan := mkChan 1 [queued_info] true.

(** A channel whose receiver has been dropped. *)
Definition closed_chan : Chan := mkChan 1 [] false.

(** A [u16] property that yields no value: absent, or a number that does not
    fit [kCFNumberSInt16Type]. *)
Definition u16_missing (reg : Registry) (d : io_object_t) (key : string) : bool :=
  match entry_property reg d key with
  | None => true
  | Some (CFNumber z) => negb (fits_sint16 z)
  | Some _ => false
  end.

(** An event with its timestamp cleared. *)
Definition erase_ts (i : UsbDeviceInfo) : UsbDeviceInfo :=
  mkUsbDeviceInfo (device_name i) (vendor_id i) (product_id i)
                  (serial_number i) 0 (event_type i) (device_handle i).

Definition erase_chan (c : Chan) : Chan :=
  mkChan (cap c) (map erase_ts (queue c)) (rx_open c).

Definition erase_sent (l : list (UsbDeviceInfo * SendStatus))
  : list (UsbDeviceInfo * SendStatus) :=
  map (fun p => (erase_ts (fst p), snd p)) l.

(** Two states equal except for timestamps and the native log. *)
Definition same_up_to_ts (s1 s2 : St) : Prop :=
  erase_sent (sent s1) = erase_sent (sent s2) /\
  erase_chan (chan s1) = erase_chan (chan s2) /\
  consumer s1 = consumer s2 /\
  next_calls s1 = next_calls s2 /\
  clock_calls s1 = clock_calls s2.

(** Two registries giving the same answers. *)
Definition regs_agree (reg1 reg2 : Registry) : Prop :=
  matching_ok reg1 = matching_ok reg2 /\
  get_services_kr reg1 = get_services_kr reg2 /\
  (forall k, iterator_next reg1 k = iterator_next reg2 k) /\
  (forall d, entry_name reg1 d = entry_name reg2 d) /\
  (forall d key, entry_property reg1 d key = entry_property reg2 d key).

(** Reading a lowercase hexadecimal string back as a number, as a consumer
    of [vendor_id] / [product_id] would ([u16::from_str_radix(s, 16)] on
    lowercase input). *)
Definition hex_value (c : ascii) : option N :=
  let n := N_of_ascii c in
  if (48 <=? n)%N && (n <=? 57)%N then Some (n - 48)%N
  else if (97 <=? n)%N && (n <=? 102)%N then Some (n - 87)%N
  else None.

Fixpoint parse_hex_from (acc : N) (s : string) : option N :=
  match s with
  | EmptyString => Some acc
  | String c s' =>
      match hex_value c with
      | Some v => parse_hex_from (acc * 16 + v)%N s'
      | None => None
      end
  end.

Definition parse_hex (s : string) : option N :=
  match s with
  | EmptyString => None
  | _ => parse_hex_from 0 s
  end.

(* ------------------------------------------------------------------------- *)
(** ** Formatting examples *)

Example fmt_04x_small : fmt_04x 10 = "000a"%string.
Proof. reflexivity. Qed.
Example fmt_04x_large : fmt_04x 43981 = "abcd"%string.
Proof. reflexivity. Qed.
Example fmt_signed_neg : fmt_signed (-536870206) = "-536870206"%string.
Proof. reflexivity. Qed.
Example trim_key : trim_end_nul (c_literal "idVendor") = "idVendor"%string.
Proof. reflexivity. Qed.

(* ------------------------------------------------------------------------- *)
(** ** Lemmas on the helpers *)

Lemma nested_counts l : Nested l -> forall r, acquires r l = releases r l.
Proof.
  unfold acquires, releases.
  induction 1 as [|l1 l2 _ IH1 _ IH2|r0 l _ IH]; intro x.
  - reflexivity.
  - rewrite !count_occ_app, IH1, IH2; reflexivity.
  - destruct (NativeRes_eq_dec r0 x) as [<-|ne].
    + rewrite count_occ_cons_eq by reflexivity.
      rewrite count_occ_cons_neq by discriminate.
      rewrite !count_occ_app, IH.
      rewrite (count_occ_cons_neq _ [] (x := Release r0) (y := Acquire r0))
        by discriminate.
      rewrite (count_occ_cons_eq _ [] (x := Release r0)) by reflexivity.
      simpl. lia.
    + rewrite !count_occ_cons_neq by congruence.
      rewrite !count_occ_app, IH.
      rewrite (count_occ_cons_neq _ [] (x := Release r0) (y := Acquire x))
        by discriminate.
      rewrite (count_occ_cons_neq _ [] (x := Release r0) (y := Release x))
        by congruence.
      reflexivity.
Qed.

Lemma nested_pair r : Nested [Acquire r; Release r].
Proof. apply (nested_scope r []), nested_nil. Qed.

Create HintDb nested.
Local Hint Constructors Nested : nested.
Local Hint Resolve nested_pair : nested.

Lemma u16_spec reg d name s :
  frame s (snd (get_device_property_u16 reg d name s)) /\
  fst (get_device_property_u16 reg d name s) =
    match from_utf8 name with
    | None => Ret None
    | Some n =>
        match entry_property reg d (trim_end_nul n) with
        | None => Ret None
        | Some (CFNumber z) =>
            Ret (if fits_sint16 z then Some (z mod 65536) else None)
        | Some _ => Fault
        end
    end /\
  (fst (get_device_property_u16 reg d name s) <> Fault ->
   exists l, ops (snd (get_device_property_u16 reg d name s)) = ops s ++ l /\
             Nested l).
Proof.
  unfold get_device_property_u16, frame.
  destruct (from_utf8 name) as [n|].
  2:{ simpl. repeat split; auto. intros _. exists []. rewrite app_nil_r. split; auto with nested. }
  unfold bind, cf_string_from_static, io_registry_entry_create_cf_property,
    cf_number_get_value_sint16, log_op, release, ret, fault, fits_sint16.
  destruct (entry_property reg d (trim_end_nul n)) as [[z|t|]|]; simpl;
    [destruct ((-32768 <=? z) && (z <=? 32767)) | | |]; simpl.
  all: split; [repeat split; reflexivity|]; split; [reflexivity|].
  all: intro Hnf; try congruence; eexists;
    (split; [rewrite <- !app_assoc; reflexivity|]); simpl.
  1, 2: apply (nested_scope _ [_; _]); apply nested_pair.
  apply nested_pair.
Qed.

Lemma string_spec reg d name s :
  frame s (snd (get_device_property_string reg d name s)) /\
  fst (get_device_property_string reg d name s) =
    match from_utf8 name with
    | None => Ret None
    | Some n =>
        match entry_property reg d (trim_end_nul n) with
        | None => Ret None
        | Some (CFString t) =>
            Ret (if String.eqb t EmptyString then None else Some t)
        | Some _ => Fault
        end
    end /\
  (fst (get_device_property_string reg d name s) <> Fault ->
   exists l, ops (snd (get_device_property_string reg d name s)) = ops s ++ l /\
             Nested l).
Proof.
  unfold get_device_property_string, frame.
  destruct (from_utf8 name) as [n|].
  2:{ simpl. repeat split; auto. intros _. exists []. rewrite app_nil_r. split; auto with nested. }
  unfold bind, cf_string_from_static, io_registry_entry_create_cf_property,
    cf_string_to_string, log_op, release, ret, fault.
  destruct (entry_property reg d (trim_end_nul n)) as [[z|t|]|]; simpl;
    [| destruct (String.eqb t EmptyString) | |]; simpl.
  all: split; [repeat split; reflexivity|]; split; [reflexivity|].
  all: intro Hnf; try congruence; eexists;
    (split; [rewrite <- !app_assoc; reflexivity|]); simpl.
  1, 2: apply (nested_scope _ [_; _]); apply nested_pair.
  apply nested_pair.
Qed.

Lemma from_utf8_vendor : from_utf8 (c_literal "idVendor") = Some (c_literal "idVendor").
Proof. reflexivity. Qed.
Lemma from_utf8_product : from_utf8 (c_literal "idProduct") = Some (c_literal "idProduct").
Proof. reflexivity. Qed.
Lemma from_utf8_serial :
  from_utf8 (c_literal "USB Serial Number") = Some (c_literal "USB Serial Number").
Proof. reflexivity. Qed.
Lemma trim_vendor : trim_end_nul (c_literal "idVendor") = "idVendor"%string.
Proof. reflexivity. Qed.
Lemma trim_product : trim_end_nul (c_literal "idProduct") = "idProduct"%string.
Proof. reflexivity. Qed.
Lemma trim_serial :
  trim_end_nul (c_literal "USB Serial Number") = "USB Serial Number"%string.
Proof. reflexivity. Qed.

Lemma u16_read reg d name k s :
  from_utf8 name = Some k ->
  frame s (snd (get_device_property_u16 reg d name s)) /\
  if number_or_absent (entry_property reg d (trim_end_nul k)) then
    fst (get_device_property_u16 reg d name s) = Ret (u16_value reg d (trim_end_nul k)) /\
    exists l, ops (snd (get_device_property_u16 reg d name s)) = ops s ++ l /\ Nested l
  else fst (get_device_property_u16 reg d name s) = Fault.
Proof.
  intro Hk. destruct (u16_spec reg d name s) as (F & E & N).
  rewrite Hk in E. split; [exact F|].
  unfold u16_value.
  destruct (entry_property reg d (trim_end_nul k)) as [[z|t|]|]; simpl in *;
    auto; split; auto; apply N; congruence.
Qed.

Lemma string_read reg d name k s :
  from_utf8 name = Some k ->
  frame s (snd (get_device_property_string reg d name s)) /\
  if string_or_absent (entry_property reg d (trim_end_nul k)) then
    fst (get_device_property_string reg d name s) =
      Ret (string_value reg d (trim_end_nul k)) /\
    exists l, ops (snd (get_device_property_string reg d name s)) = ops s ++ l /\
              Nested l
  else fst (get_device_property_string reg d name s) = Fault.
Proof.
  intro Hk. destruct (string_spec reg d name s) as (F & E & N).
  rewrite Hk in E. split; [exact F|].
  unfold string_value.
  destruct (entry_property reg d (trim_end_nul k)) as [[z|t|]|]; simpl in *;
    auto; split; auto; apply N; congruence.
Qed.

(** One iteration of the loop body on record [d]. *)
Lemma process_spec reg clock d s :
  next_calls (snd (process_device reg clock d s)) = next_calls s /\
  if device_props_ok reg d then
    let info := expected_info reg d (clock (clock_calls s)) in
    let '(st, ch, cs) := chan_send info (chan s) (consumer s) in
    sent (snd (process_device reg clock d s)) = sent s ++ [(info, st)] /\
    chan (snd (process_device reg clock d s)) = ch /\
    consumer (snd (process_device reg clock d s)) = cs /\
    clock_calls (snd (process_device reg clock d s)) = S (clock_calls s) /\
    fst (process_device reg clock d s) =
      match st with Waiting => Blocked | _ => Ret tt end /\
    (st <> Waiting ->
     exists l, ops (snd (process_device reg clock d s)) =
               ops s ++ l ++ [Release (RDevice d)] /\ Nested l)
  else fst (process_device reg clock d s) = Fault /\
       frame s (snd (process_device reg clock d s)).
Proof.
  unfold process_device, bind, io_registry_entry_get_name, ret.
  destruct (u16_read reg d _ _ s from_utf8_vendor) as (F1 & H1).
  rewrite trim_vendor in H1.
  destruct (get_device_property_u16 reg d (c_literal "idVendor") s) as [r1 s1].
  simpl in F1, H1. destruct F1 as (Fs1 & Fc1 & Fk1 & Fn1 & Fl1).
  unfold device_props_ok.
  destruct (number_or_absent (entry_property reg d "idVendor")); simpl.
  2:{ subst r1. simpl. repeat split; congruence. }
  destruct H1 as (-> & l1 & O1 & N1).
  destruct (u16_read reg d _ _ s1 from_utf8_product) as (F2 & H2).
  rewrite trim_product in H2.
  destruct (get_device_property_u16 reg d (c_literal "idProduct") s1) as [r2 s2].
  simpl in F2, H2. destruct F2 as (Fs2 & Fc2 & Fk2 & Fn2 & Fl2).
  destruct (number_or_absent (entry_property reg d "idProduct")); simpl.
  2:{ subst r2. simpl. repeat split; congruence. }
  destruct H2 as (-> & l2 & O2 & N2).
  destruct (string_read reg d _ _ s2 from_utf8_serial) as (F3 & H3).
  rewrite trim_serial in H3.
  destruct (get_device_property_string reg d (c_literal "USB Serial Number") s2)
    as [r3 s3].
  simpl in F3, H3. destruct F3 as (Fs3 & Fc3 & Fk3 & Fn3 & Fl3).
  destruct (string_or_absent (entry_property reg d "USB Serial Number")); simpl.
  2:{ subst r3. simpl. repeat split; congruence. }
  destruct H3 as (-> & l3 & O3 & N3).
  unfold utc_now_m, tx_send, release, log_op. simpl.
  rewrite Fl3, Fl2, Fl1, Fc3, Fc2, Fc1, Fk3, Fk2, Fk1.
  unfold expected_info.
  destruct (chan_send _ (chan s) (consumer s)) as [[st ch] cs]; simpl.
  destruct st; simpl; (split; [congruence|]); repeat split; try congruence.
  all: intros _; exists (l1 ++ l2 ++ l3); split.
  1, 3: rewrite O3, O2, O1, <- !app_assoc; reflexivity.
  all: apply nested_app; [exact N1|]; apply nested_app; assumption.
Qed.

(** [IOIteratorNext] followed by the body, as one unfolding of the loop. *)
Lemma monitor_loop_S reg clock fuel s :
  monitor_loop reg clock (S fuel) s =
  let d := iterator_next reg (next_calls s) in
  let s1 := mkSt (ops s) (sent s) (chan s) (consumer s)
                 (S (next_calls s)) (clock_calls s) in
  if d =? 0 then (Ret tt, s1)
  else
    let s2 := mkSt (ops s ++ [Acquire (RDevice d)]) (sent s) (chan s)
                   (consumer s) (S (next_calls s)) (clock_calls s) in
    match process_device reg clock d s2 with
    | (Ret _, s3) => monitor_loop reg clock fuel s3
    | (Blocked, s3) => (Blocked, s3)
    | (Fault, s3) => (Fault, s3)
    | (NoFuel, s3) => (NoFuel, s3)
    end.
Proof.
  unfold monitor_loop at 1; fold monitor_loop.
  unfold bind at 1, io_iterator_next. cbv beta zeta.
  destruct (iterator_next reg (next_calls s) =? 0) eqn:E; simpl; rewrite E;
    reflexivity.
Qed.

(** A loop that comes back has drawn the records up to the first sentinel,
    sent one event for each of them, and left a scoped native log. *)
Lemma loop_ret reg clock fuel s r s' :
  monitor_loop reg clock fuel s = (Ret r, s') ->
  exists n,
    (n < fuel)%nat /\
    iterator_next reg (next_calls s + n) = 0 /\
    (forall j, (j < n)%nat -> iterator_next reg (next_calls s + j) <> 0) /\
    next_calls s' = (next_calls s + n + 1)%nat /\
    (exists l, ops s' = ops s ++ l /\ Nested l) /\
    exists new,
      sent s' = sent s ++ new /\
      map (fun p => device_handle (fst p)) new =
        map (fun j => Macos (fmt_unsigned (iterator_next reg (next_calls s + j))))
            (seq 0 n) /\
      Forall (fun p => snd p <> Waiting) new.
Proof.
  revert s. induction fuel as [|fuel IH]; intros s H; [discriminate|].
  rewrite monitor_loop_S in H. cbv zeta in H.
  destruct (iterator_next reg (next_calls s) =? 0) eqn:Hd.
  - injection H as <- <-. exists 0%nat. simpl.
    apply Z.eqb_eq in Hd. rewrite Nat.add_0_r.
    repeat split; auto; try lia.
    + exists []. rewrite app_nil_r. split; auto with nested.
    + exists []. rewrite app_nil_r. repeat split; auto.
  - apply Z.eqb_neq in Hd.
    set (d := iterator_next reg (next_calls s)) in *.
    set (s2 := mkSt (ops s ++ [Acquire (RDevice d)]) (sent s) (chan s)
                    (consumer s) (S (next_calls s)) (clock_calls s)) in *.
    destruct (process_spec reg clock d s2) as [Pn P].
    destruct (process_device reg clock d s2) as [r3 s3] eqn:E3.
    simpl in Pn, P.
    destruct r3; try discriminate.
    destruct (device_props_ok reg d); [|destruct P; discriminate].
    destruct (chan_send (expected_info reg d (clock (clock_calls s))) (chan s)
                (consumer s)) as [[st ch] cs].
    destruct P as (Ps & _ & _ & _ & Pr & Po).
    assert (Hst : st <> Waiting) by (intro; subst; discriminate).
    destruct (Po Hst) as (l & Ol & Nl).
    destruct (IH s3 H) as (n & Hn & Hz & Hnz & Hc & (l' & O' & N') & new & Sn & Mn & Wn).
    rewrite Pn in Hz, Hnz, Hc, Mn. simpl in Hz, Hnz, Hc, Mn.
    exists (S n). repeat split.
    + lia.
    + rewrite <- Hz. f_equal. lia.
    + intros j Hj. destruct j as [|j].
      * rewrite Nat.add_0_r. exact Hd.
      * replace (next_calls s + S j)%nat with (S (next_calls s) + j)%nat by lia.
        apply Hnz. lia.
    + rewrite Hc. lia.
    + exists ((Acquire (RDevice d) :: l ++ [Release (RDevice d)]) ++ l').
      split.
      * rewrite O', Ol. simpl. rewrite <- !app_assoc. reflexivity.
      * apply nested_app; [apply nested_scope|]; assumption.
    + exists ((expected_info reg d (clock (clock_calls s)), st) :: new).
      repeat split.
      * rewrite Sn, Ps. simpl. rewrite <- app_assoc. reflexivity.
      * simpl. rewrite Nat.add_0_r. f_equal.
        rewrite Mn, <- seq_shift, map_map. apply map_ext. intro j.
        do 3 f_equal. lia.
      * constructor; assumption.
Qed.

Lemma loop_stable reg clock fuel s :
  fst (monitor_loop reg clock fuel s) <> NoFuel ->
  forall fuel', (fuel <= fuel')%nat ->
  monitor_loop reg clock fuel' s = monitor_loop reg clock fuel s.
Proof.
  revert s. induction fuel as [|fuel IH]; intros s H fuel' Hle.
  - simpl in H. congruence.
  - destruct fuel' as [|fuel']; [lia|].
    rewrite !monitor_loop_S. rewrite monitor_loop_S in H. cbv zeta in *.
    destruct (iterator_next reg (next_calls s) =? 0); [reflexivity|].
    destruct (process_device _ _ _ _) as [[]] ; try reflexivity.
    apply IH; [exact H|lia].
Qed.

Lemma loop_total reg clock fuel s k :
  iterator_next reg (next_calls s + k) = 0 -> (k < fuel)%nat ->
  fst (monitor_loop reg clock fuel s) <> NoFuel.
Proof.
  revert s k. induction fuel as [|fuel IH]; intros s k Hk Hf; [lia|].
  rewrite monitor_loop_S. cbv zeta.
  destruct (iterator_next reg (next_calls s) =? 0) eqn:Hd; [discriminate|].
  set (s2 := mkSt _ _ _ _ _ _).
  pose proof (process_spec reg clock (iterator_next reg (next_calls s)) s2) as [Pn P].
  destruct (process_device _ _ _ s2) as [[] s3]; try (simpl; congruence).
  2:{ exfalso. simpl in P.
      destruct (device_props_ok _ _); [|destruct P; discriminate].
      destruct (chan_send _ _ _) as [[[] ?] ?]; destruct P as (_&_&_&_&P&_);
        discriminate. }
  simpl in Pn. destruct k as [|k].
  - rewrite Nat.add_0_r in Hk. apply Z.eqb_neq in Hd. contradiction.
  - apply (IH s3 k); [|lia]. rewrite Pn. simpl.
    rewrite <- Hk. f_equal. lia.
Qed.

(** A loop suspended at a send has logged that send as waiting. *)
Lemma loop_blocked reg clock fuel s :
  fst (monitor_loop reg clock fuel s) = Blocked ->
  exists pre info, sent (snd (monitor_loop reg clock fuel s)) = pre ++ [(info, Waiting)].
Proof.
  revert s. induction fuel as [|fuel IH]; intros s H; [discriminate|].
  rewrite monitor_loop_S in *. cbv zeta in *.
  destruct (iterator_next reg (next_calls s) =? 0); [discriminate|].
  set (d := iterator_next reg (next_calls s)) in *.
  set (s2 := mkSt _ _ _ _ _ _) in *.
  pose proof (process_spec reg clock d s2) as [_ P].
  destruct (process_device reg clock d s2) as [r3 s3]; simpl in P.
  destruct r3; try discriminate; [apply IH; exact H|].
  destruct (device_props_ok reg d).
  2:{ destruct P as [P _]. discriminate. }
  destruct (chan_send (expected_info reg d (clock (clock_calls s))) (chan s)
              (consumer s)) as [[st ch] cs].
  destruct P as (Ps & _ & _ & _ & Pr & _).
  destruct st; try discriminate. simpl. rewrite Ps. eauto.
Qed.

(** Every event the loop sends is the event of some record. *)
Lemma loop_sent_events reg clock fuel s :
  forall p, In p (sent (snd (monitor_loop reg clock fuel s))) ->
  In p (sent s) \/ exists d now, fst p = expected_info reg d now.
Proof.
  revert s. induction fuel as [|fuel IH]; intros s p Hp; [left; exact Hp|].
  rewrite monitor_loop_S in Hp. cbv zeta in Hp.
  destruct (iterator_next reg (next_calls s) =? 0); [left; exact Hp|].
  set (d := iterator_next reg (next_calls s)) in *.
  set (s2 := mkSt _ _ _ _ _ _) in *.
  assert (H3 : forall q, In q (sent (snd (process_device reg clock d s2))) ->
                In q (sent s) \/ exists d now, fst q = expected_info reg d now).
  { intros q Hq. pose proof (process_spec reg clock d s2) as [_ P].
    simpl in P. destruct (device_props_ok reg d).
    - destruct (chan_send (expected_info reg d (clock (clock_calls s)))
                  (chan s) (consumer s)) as [[st ch] cs].
      destruct P as (Ps & _). rewrite Ps in Hq. apply in_app_or in Hq.
      destruct Hq as [Hq|[<-|[]]]; [left; exact Hq|right; simpl; eauto].
    - destruct P as (_ & Fs & _). rewrite Fs in Hq. left; exact Hq. }
  destruct (process_device reg clock d s2) as [r3 s3]; simpl in H3.
  destruct r3; simpl in Hp; try (apply H3; exact Hp).
  destruct (IH s3 p Hp) as [Hq|Hq]; [apply H3; exact Hq|right; exact Hq].
Qed.

Lemma run_unfold reg clock fuel ch cs :
  run reg clock fuel ch cs =
  if matching_ok reg then
    if get_services_kr reg =? 0 then
      match monitor_loop reg clock fuel (loop_start ch cs) with
      | (Ret _, s) =>
          (Ret (Ok tt), mkSt (ops s ++ [Release RIterator]) (sent s) (chan s)
                             (consumer s) (next_calls s) (clock_calls s))
      | (Blocked, s) => (Blocked, s)
      | (Fault, s) => (Fault, s)
      | (NoFuel, s) => (NoFuel, s)
      end
    else (Ret (Err (enumeration_error (get_services_kr reg))),
          mkSt [Acquire RMatchingDict; Release RMatchingDict] [] ch cs 0 0)
  else (Ret (Err init_error), init_state ch cs).
Proof.
  unfold run, start_monitoring, io_service_matching, bind, ret.
  destruct (matching_ok reg); [|reflexivity].
  unfold io_service_get_matching_services, log_op, release, bind, ret. simpl.
  destruct (get_services_kr reg =? 0) eqn:E; simpl; rewrite ?E; simpl;
    [|reflexivity].
  unfold loop_start.
  destruct (monitor_loop reg clock fuel _) as [[] s]; reflexivity.
Qed.

Lemma prefix_inj (p a b : string) : (p ++ a = p ++ b)%string -> a = b.
Proof. induction p as [|c p IH]; simpl; [auto|]. intro H; injection H; auto. Qed.

Lemma string_of_uint_inj u v : string_of_uint u = string_of_uint v -> u = v.
Proof.
  revert v; induction u; destruct v; simpl; intro H; try discriminate;
    try reflexivity; injection H as H; f_equal; auto.
Qed.

(** Decimal digits never start with a minus sign. *)
Lemma string_of_uint_no_minus u s : string_of_uint u <> String "-" s.
Proof. destruct u; simpl; discriminate. Qed.

Lemma fmt_unsigned_inj n m :
  0 <= n -> 0 <= m -> fmt_unsigned n = fmt_unsigned m -> n = m.
Proof.
  unfold fmt_unsigned. intros Hn Hm H.
  apply string_of_uint_inj, DecimalN.Unsigned.to_uint_inj in H.
  apply Z2N.inj; assumption.
Qed.

Lemma fmt_signed_inj n m : fmt_signed n = fmt_signed m -> n = m.
Proof.
  unfold fmt_signed.
  destruct (n <? 0) eqn:Hn, (m <? 0) eqn:Hm; intro H;
    rewrite ?Z.ltb_lt, ?Z.ltb_ge in *.
  - injection H as H. apply fmt_unsigned_inj in H; lia.
  - exfalso. symmetry in H. unfold fmt_unsigned in H.
    eapply string_of_uint_no_minus; exact H.
  - exfalso. unfold fmt_unsigned in H. eapply string_of_uint_no_minus; exact H.
  - apply fmt_unsigned_inj; assumption.
Qed.

Lemma all_chars_app p s t :
  all_chars p (s ++ t) = all_chars p s && all_chars p t.
Proof. induction s as [|c s IH]; simpl; [reflexivity|]. rewrite IH, andb_assoc. reflexivity. Qed.

Lemma string_length_app s t :
  String.length (s ++ t) = (String.length s + String.length t)%nat.
Proof. induction s as [|c s IH]; simpl; [reflexivity|]. rewrite IH. reflexivity. Qed.

Lemma hex_char_digit d : (d < 16)%N -> is_lower_hex_digit (hex_char d) = true.
Proof.
  intro H. rewrite <- (N2Nat.id d). assert (Hn : (N.to_nat d < 16)%nat) by lia.
  generalize (N.to_nat d) Hn. clear.
  intros n Hn. do 16 (destruct n as [|n]; [reflexivity|]). lia.
Qed.

Lemma lower_hex_aux_spec fuel : forall n k acc,
  (1 <= k)%nat -> (n < 16 ^ N.of_nat k)%N ->
  all_chars is_lower_hex_digit acc = true ->
  all_chars is_lower_hex_digit (lower_hex_aux fuel n acc) = true /\
  (String.length (lower_hex_aux fuel n acc) <= k + String.length acc)%nat.
Proof.
  induction fuel as [|fuel IH]; intros n k acc Hk Hn Hacc; simpl; [split; [auto|lia]|].
  assert (Hc : is_lower_hex_digit (hex_char (n mod 16)) = true)
    by (apply hex_char_digit, N.mod_lt; discriminate).
  destruct (n <? 16)%N eqn:Hlt.
  - simpl. rewrite Hc, Hacc. split; [reflexivity|lia].
  - apply N.ltb_ge in Hlt.
    destruct k as [|[|k]]; [lia| |].
    + simpl in Hn. lia.
    + destruct (IH (n / 16)%N (S k) (String (hex_char (n mod 16)) acc))
        as [H1 H2]; [lia| |simpl; rewrite Hc, Hacc; reflexivity|].
      * apply N.Div0.div_lt_upper_bound.
        replace (N.of_nat (S (S k))) with (N.succ (N.of_nat (S k))) in Hn by lia.
        rewrite N.pow_succ_r' in Hn. lia.
      * split; [exact H1|]. simpl in H2. lia.
Qed.

Lemma zeros_spec k :
  String.length (zeros k) = k /\ all_chars is_lower_hex_digit (zeros k) = true.
Proof. induction k as [|k [IH1 IH2]]; simpl; auto. Qed.

(** [format!("{:04x}", id)] of a [u16] is four lowercase hexadecimal digits. *)
Lemma fmt_04x_hex4 id : 0 <= id < 65536 -> hex4 (fmt_04x id) = true.
Proof.
  intro H. unfold hex4, fmt_04x, pad_zeros, lower_hex.
  destruct (lower_hex_aux_spec (S (N.size_nat (Z.to_N id))) (Z.to_N id) 4
              EmptyString) as [H1 H2]; [lia| |reflexivity|].
  - change (16 ^ N.of_nat 4)%N with 65536%N. lia.
  - change (String.length EmptyString) with 0%nat in H2.
    destruct (zeros_spec (4 - String.length
      (lower_hex_aux (S (N.size_nat (Z.to_N id))) (Z.to_N id) EmptyString)))
      as [Z1 Z2].
    rewrite string_length_app, all_chars_app, Z1, Z2, H1.
    apply andb_true_intro; split; [apply Nat.eqb_eq; lia|reflexivity].
Qed.

Lemma id_or_default_hex4 reg d key : hex4 (id_or_default (u16_value reg d key)) = true.
Proof.
  unfold u16_value.
  destruct (entry_property reg d key) as [[z| |]|]; try reflexivity.
  destruct (fits_sint16 z); [|reflexivity].
  apply fmt_04x_hex4. apply Z.mod_pos_bound. lia.
Qed.

Lemma run_sent_events reg clock fuel ch cs :
  Forall (fun p => exists d now, fst p = expected_info reg d now)
         (sent (snd (run reg clock fuel ch cs))).
Proof.
  apply Forall_forall. intros p Hp. rewrite run_unfold in Hp.
  destruct (matching_ok reg); [|contradiction].
  destruct (get_services_kr reg =? 0); [|contradiction].
  assert (H := loop_sent_events reg clock fuel (loop_start ch cs) p).
  destruct (monitor_loop reg clock fuel (loop_start ch cs)) as [[] s];
    simpl in H, Hp; destruct (H Hp) as [[]|E]; exact E.
Qed.

Example run_reg_ab :
  map fst (sent (snd (run reg_ab clock0 5 (mkChan 8 [] true) []))) =
  [mk_info 1 "Widget" "1234" "5678" (Some "ABC123"%string) 0;
   mk_info 2 "Unknown USB Device" "0000" "0000" None 1].
Proof. vm_compute. reflexivity. Qed.

(* ------------------------------------------------------------------------- *)
(** ** Claims *)

(** C2: [start_monitoring] fails in exactly two ways, before drawing any
    record and without sending anything: when the matching dictionary cannot
    be created, and when [IOServiceGetMatchingServices] returns a non-zero
    status, whose decimal rendering in the message determines it exactly.
    Every other pass that returns, returns [Ok]. *)
Theorem start_monitoring_fatal_errors reg clock fuel ch cs :
  (matching_ok reg = false ->
   run reg clock fuel ch cs = (Ret (Err init_error), init_state ch cs)) /\
  (matching_ok reg = true -> get_services_kr reg <> 0 ->
   fst (run reg clock fuel ch cs) = Ret (Err (enumeration_error (get_services_kr reg))) /\
   sent (snd (run reg clock fuel ch cs)) = [] /\
   next_calls (snd (run reg clock fuel ch cs)) = 0%nat) /\
  (forall e, fst (run reg clock fuel ch cs) = Ret (Err e) ->
   (matching_ok reg = false /\ e = init_error) \/
   (matching_ok reg = true /\ get_services_kr reg <> 0 /\
    e = enumeration_error (get_services_kr reg))) /\
  (forall kr1 kr2, enumeration_error kr1 = enumeration_error kr2 -> kr1 = kr2) /\
  (forall kr, enumeration_error kr <> init_error).
Proof.
  split; [|split; [|split; [|split]]].
  - intro H. rewrite run_unfold, H. reflexivity.
  - intros H Hkr. rewrite run_unfold, H.
    apply Z.eqb_neq in Hkr. rewrite Hkr. simpl. auto.
  - intros e. rewrite run_unfold.
    destruct (matching_ok reg); simpl.
    + destruct (get_services_kr reg =? 0) eqn:Hkr.
      * destruct (monitor_loop reg clock fuel (loop_start ch cs)) as [[] s];
          simpl; discriminate.
      * intro H. injection H as <-. right. apply Z.eqb_neq in Hkr. auto.
    + intro H. injection H as <-. left. auto.
  - intros kr1 kr2 H. apply prefix_inj in H. apply fmt_signed_inj, H.
  - intros kr H. discriminate H.
Qed.

(** C4: every event sent by [start_monitoring] has kind [Connected]. *)
Theorem start_monitoring_only_connected reg clock fuel ch cs :
  Forall (fun p => event_type (fst p) = Connected)
         (sent (snd (run reg clock fuel ch cs))).
Proof.
  eapply Forall_impl; [|apply run_sent_events].
  intros p (d & now & ->). reflexivity.
Qed.

Lemma start_monitoring_fatal_errors_witness :
  fst (run reg_lookup_fails clock0 3 closed_chan []) =
    Ret (Err (enumeration_error (-536870212))) /\
  sent (snd (run reg_lookup_fails clock0 3 closed_chan [])) = [].
Proof.
  destruct (start_monitoring_fatal_errors reg_lookup_fails clock0 3 closed_chan [])
    as (_ & H & _).
  destruct (H eq_refl ltac:(discriminate)) as (H1 & H2 & _).
  split; [exact H1|exact H2].
Defined.

(** C3 (counterexample): a record whose "idVendor" property is a CFString
    does not yield an event with vendor "0000": the string is handed to
    [CFNumberGetValue] unchecked, and the pass is undefined from there. *)
Lemma vendor_string_property_undefined :
  fst (run reg_vendor_string clock0 3 (mkChan 8 [] true) []) = Fault /\
  sent (snd (run reg_vendor_string clock0 3 (mkChan 8 [] true) [])) = [].
Proof. vm_compute. split; reflexivity. Qed.

(** C3 (amended): every event sent by [start_monitoring] carries vendor and
    product identifiers of exactly four lowercase hexadecimal digits, and an
    identifier is "0000" when its property is absent or is a number that
    does not fit a signed 16-bit value. *)
Theorem start_monitoring_id_format reg clock fuel ch cs :
  Forall (fun p =>
    hex4 (vendor_id (fst p)) = true /\ hex4 (product_id (fst p)) = true /\
    exists d,
      device_handle (fst p) = Macos (fmt_unsigned d) /\
      (u16_missing reg d "idVendor" = true -> vendor_id (fst p) = "0000"%string) /\
      (u16_missing reg d "idProduct" = true -> product_id (fst p) = "0000"%string))
    (sent (snd (run reg clock fuel ch cs))).
Proof.
  eapply Forall_impl; [|apply run_sent_events].
  intros p (d & now & ->). simpl.
  split; [apply id_or_default_hex4|]. split; [apply id_or_default_hex4|].
  exists d. split; [reflexivity|].
  unfold u16_missing, u16_value.
  split; destruct (entry_property reg d _) as [[z| |]|]; simpl; try discriminate;
    auto; destruct (fits_sint16 z); simpl; auto; discriminate.
Qed.

(** C5 (counterexample): [get_device_property_u16] on a property that is a
    CFString is not "nothing": the value reaches [CFNumberGetValue] without a
    type check. *)
Lemma u16_on_string_property_undefined :
  fst (get_device_property_u16 reg_vendor_string 7 (c_literal "idVendor")
         (init_state closed_chan [])) = Fault.
Proof. vm_compute. reflexivity. Qed.

(** C5 (amended): [get_device_property_u16] returns nothing when the name is
    not UTF-8 or the property is absent; on a CFNumber it returns the value
    (as [u16] bits) exactly when it fits a signed 16-bit integer and nothing
    otherwise; a present property of another type is undefined. *)
Theorem get_device_property_u16_result reg d name s :
  fst (get_device_property_u16 reg d name s) =
    match from_utf8 name with
    | None => Ret None
    | Some n =>
        match entry_property reg d (trim_end_nul n) with
        | None => Ret None
        | Some (CFNumber z) =>
            Ret (if fits_sint16 z then Some (z mod 65536) else None)
        | Some _ => Fault
        end
    end.
Proof. apply (u16_spec reg d name s). Qed.

(** C6: [get_device_property_string] never returns an empty string: it
    returns nothing for an absent or empty property, and so the serial number
    of every event sent is absent or non-empty. *)
Theorem get_device_property_string_nonempty :
  (forall reg d name s,
     fst (get_device_property_string reg d name s) <> Ret (Some EmptyString)) /\
  (forall reg d name s,
     entry_property reg d (trim_end_nul name) = None \/
     entry_property reg d (trim_end_nul name) = Some (CFString EmptyString) ->
     fst (get_device_property_string reg d name s) = Ret None) /\
  (forall reg clock fuel ch cs,
     Forall (fun p => serial_number (fst p) <> Some EmptyString)
            (sent (snd (run reg clock fuel ch cs)))).
Proof.
  split; [|split].
  - intros reg d name s. destruct (string_spec reg d name s) as (_ & -> & _).
    destruct (from_utf8 name); [|discriminate].
    destruct (entry_property reg d (trim_end_nul s0)) as [[z|t|]|]; try discriminate.
    destruct (String.eqb t EmptyString) eqn:E; [discriminate|].
    intro H. injection H as ->. discriminate.
  - intros reg d name s H. destruct (string_spec reg d name s) as (_ & -> & _).
    unfold from_utf8. destruct (utf8_valid name); [|reflexivity].
    destruct H as [-> | ->]; reflexivity.
  - intros reg clock fuel ch cs.
    eapply Forall_impl; [|apply run_sent_events].
    intros p (d & now & ->). simpl. unfold string_value.
    destruct (entry_property reg d _) as [[z|t|]|]; try discriminate.
    destruct (String.eqb t EmptyString) eqn:E; [discriminate|].
    intro H. injection H as ->. discriminate.
Qed.

Lemma get_device_property_string_nonempty_witness :
  fst (get_device_property_string reg_two 1 (c_literal "USB Serial Number")
         (init_state closed_chan [])) = Ret None.
Proof.
  destruct get_device_property_string_nonempty as (_ & H & _).
  apply H. left. reflexivity.
Defined.

(** C7: in every pass that returns, each native reference taken (matching
    dictionary, iterator, device, property name, property) is released
    exactly once, later, in a properly nested scope. *)
Theorem start_monitoring_releases_everything reg clock fuel ch cs r st :
  run reg clock fuel ch cs = (Ret r, st) ->
  Nested (ops st) /\ forall x, acquires x (ops st) = releases x (ops st).
Proof.
  intro H.
  enough (N : Nested (ops st)) by (split; [exact N|apply nested_counts, N]).
  rewrite run_unfold in H.
  destruct (matching_ok reg).
  2:{ injection H as _ <-. constructor. }
  destruct (get_services_kr reg =? 0).
  2:{ injection H as _ <-. apply nested_pair. }
  destruct (monitor_loop reg clock fuel (loop_start ch cs)) as [r' s] eqn:E;
    destruct r'; try discriminate.
  injection H as _ <-. simpl.
  destruct (loop_ret _ _ _ _ _ _ E) as (n & _ & _ & _ & _ & (l & Ol & Nl) & _).
  rewrite Ol. simpl.
  apply (nested_app [_; _] (_ :: _ ++ [_])); [apply nested_pair|].
  apply nested_scope, Nl.
Qed.

Lemma start_monitoring_releases_everything_witness :
  Nested (ops (snd (run reg_ab clock0 5 (mkChan 8 [] true) []))).
Proof.
  apply (start_monitoring_releases_everything reg_ab clock0 5 (mkChan 8 [] true) []
           (Ok tt)).
  vm_compute. reflexivity.
Defined.

(** C8: a pass that returns [Ok] has drawn the records up to the first
    sentinel and made exactly one send for each, in the order drawn: the
    handles of the events sent are the records, one to one. *)
Theorem start_monitoring_one_send_per_record reg clock fuel ch cs st :
  run reg clock fuel ch cs = (Ret (Ok tt), st) ->
  exists n,
    iterator_next reg n = 0 /\
    (forall j, (j < n)%nat -> iterator_next reg j <> 0) /\
    next_calls st = S n /\
    map (fun p => device_handle (fst p)) (sent st) =
      map (fun j => Macos (fmt_unsigned (iterator_next reg j))) (seq 0 n).
Proof.
  intro H. rewrite run_unfold in H.
  destruct (matching_ok reg); [|discriminate].
  destruct (get_services_kr reg =? 0); [|discriminate].
  destruct (monitor_loop reg clock fuel (loop_start ch cs)) as [r' s] eqn:E;
    destruct r'; try discriminate.
  injection H as <-. simpl.
  destruct (loop_ret _ _ _ _ _ _ E)
    as (n & _ & Hz & Hnz & Hc & _ & new & Sn & Mn & _).
  simpl in *. exists n. repeat split; auto.
  - rewrite Hc. lia.
  - rewrite Sn. exact Mn.
Qed.

Lemma start_monitoring_one_send_per_record_witness :
  exists n,
    iterator_next reg_ab n = 0 /\
    (forall j, (j < n)%nat -> iterator_next reg_ab j <> 0) /\
    next_calls (snd (run reg_ab clock0 5 (mkChan 8 [] true) [])) = S n /\
    map (fun p => device_handle (fst p))
        (sent (snd (run reg_ab clock0 5 (mkChan 8 [] true) []))) =
      map (fun j => Macos (fmt_unsigned (iterator_next reg_ab j))) (seq 0 n).
Proof.
  apply (start_monitoring_one_send_per_record reg_ab clock0 5 (mkChan 8 [] true) []).
  vm_compute. reflexivity.
Defined.

Lemma chan_send_closed v ch cs :
  rx_open ch = false -> chan_send v ch cs = (Dropped, ch, cs).
Proof. intro H. destruct cs; simpl; rewrite H; reflexivity. Qed.

Lemma loop_closed reg clock fuel s n :
  rx_open (chan s) = false -> props_well_typed reg ->
  iterator_next reg (next_calls s + n) = 0 ->
  (forall j, (j < n)%nat -> iterator_next reg (next_calls s + j) <> 0) ->
  (n < fuel)%nat ->
  exists s', monitor_loop reg clock fuel s = (Ret tt, s') /\
    rx_open (chan s') = false /\
    exists new, sent s' = sent s ++ new /\ List.length new = n /\
                Forall (fun p => snd p = Dropped) new.
Proof.
  revert s n. induction fuel as [|fuel IH]; intros s n Hrx Hwt Hz Hnz Hf; [lia|].
  rewrite monitor_loop_S. cbv zeta.
  destruct n as [|n].
  - rewrite Nat.add_0_r in Hz. rewrite Hz. simpl.
    eexists; split; [reflexivity|]. split; [exact Hrx|].
    exists []. rewrite app_nil_r. auto.
  - assert (Hd := Hnz 0%nat ltac:(lia)). rewrite Nat.add_0_r in Hd.
    apply Z.eqb_neq in Hd. rewrite Hd.
    set (d := iterator_next reg (next_calls s)).
    set (s2 := mkSt _ _ _ _ _ _).
    destruct (process_spec reg clock d s2) as [Pn P].
    assert (Hok : device_props_ok reg d = true).
    { unfold device_props_ok. destruct (Hwt d) as (-> & -> & ->). reflexivity. }
    rewrite Hok in P. simpl in P.
    rewrite (chan_send_closed _ _ _ Hrx) in P.
    destruct (process_device reg clock d s2) as [r3 s3]; simpl in Pn, P.
    destruct P as (Ps & Pc & _ & _ & -> & _).
    destruct (IH s3 n) as (s' & E & Hrx' & new & Sn & Ln & Fn).
    + rewrite Pc. exact Hrx.
    + exact Hwt.
    + rewrite Pn, <- Hz. f_equal. lia.
    + intros j Hj. rewrite Pn.
      replace (S (next_calls s) + j)%nat with (next_calls s + S j)%nat by lia.
      apply Hnz. lia.
    + lia.
    + exists s'. split; [exact E|]. split; [exact Hrx'|].
      exists ((expected_info reg d (clock (clock_calls s)), Dropped) :: new).
      rewrite Sn, Ps, <- app_assoc. repeat split; simpl; auto.
Qed.

Lemma chan_send_dropped v ch cs :
  fst (fst (chan_send v ch cs)) = Dropped -> rx_open ch = false \/ In CloseRx cs.
Proof.
  revert ch. induction cs as [|a cs IH]; intros ch H; simpl in H.
  - destruct (rx_open ch); [|left; reflexivity].
    destruct (Nat.ltb _ _); discriminate.
  - destruct (rx_open ch) eqn:Ho; [|left; reflexivity]. simpl in H.
    destruct (Nat.ltb _ _); [discriminate|].
    destruct a.
    + destruct (IH _ H) as [E|E]; [discriminate|right; right; exact E].
    + right; left; reflexivity.
Qed.

(** C1 (counterexample): with a full queue and a live receiver the send of
    the first record neither fails nor is dropped: the pass waits there, and
    the second record is never drawn. *)
Lemma full_queue_send_waits :
  fst (run reg_two clock0 5 full_chan []) = Blocked /\
  map snd (sent (snd (run reg_two clock0 5 full_chan []))) = [Waiting] /\
  next_calls (snd (run reg_two clock0 5 full_chan [])) = 1%nat.
Proof. vm_compute. repeat split. Qed.

(** C1 (amended): a send only fails when the receiver is gone; that failure
    is discarded and the pass goes on, so a pass over [n] records with no
    live receiver returns [Ok] with all [n] sends dropped.  With a full queue
    and a live receiver the send is not dropped: it waits for capacity. *)
Theorem start_monitoring_send_best_effort :
  (forall reg clock fuel ch cs n,
     rx_open ch = false -> props_well_typed reg ->
     matching_ok reg = true -> get_services_kr reg = 0 ->
     iterator_next reg n = 0 ->
     (forall j, (j < n)%nat -> iterator_next reg j <> 0) ->
     (n < fuel)%nat ->
     exists st, run reg clock fuel ch cs = (Ret (Ok tt), st) /\
       List.length (sent st) = n /\ Forall (fun p => snd p = Dropped) (sent st)) /\
  (forall v ch cs,
     fst (fst (chan_send v ch cs)) = Dropped -> rx_open ch = false \/ In CloseRx cs) /\
  (forall v ch,
     rx_open ch = true -> (cap ch <= List.length (queue ch))%nat ->
     chan_send v ch [] = (Waiting, ch, [])).
Proof.
  split; [|split].
  - intros reg clock fuel ch cs n Hrx Hwt Hm Hkr Hz Hnz Hf.
    rewrite run_unfold, Hm, Hkr. simpl.
    destruct (loop_closed reg clock fuel (loop_start ch cs) n Hrx Hwt Hz Hnz Hf)
      as (s' & -> & _ & new & Sn & Ln & Fn).
    eexists; split; [reflexivity|]. simpl in *. rewrite Sn. auto.
  - apply chan_send_dropped.
  - intros v ch Ho Hc. simpl. rewrite Ho. simpl.
    replace (Nat.ltb (List.length (queue ch)) (cap ch)) with false
      by (symmetry; apply Nat.ltb_ge; exact Hc).
    reflexivity.
Qed.

Lemma start_monitoring_send_best_effort_witness :
  exists st, run reg_two clock0 3 closed_chan [] = (Ret (Ok tt), st) /\
    List.length (sent st) = 2%nat /\ Forall (fun p => snd p = Dropped) (sent st).
Proof.
  destruct start_monitoring_send_best_effort as (H & _ & _).
  apply (H reg_two clock0 3%nat closed_chan [] 2%nat).
  - reflexivity.
  - intro d. repeat split.
  - reflexivity.
  - reflexivity.
  - reflexivity.
  - intros j Hj. destruct j as [|[|j]]; simpl; [discriminate|discriminate|lia].
  - lia.
Defined.

(** C9 (counterexample): the iterator of [reg_two] ends after two records,
    yet with a full queue and a consumer that never takes a value, no amount
    of running makes the pass return. *)
Lemma full_queue_pass_never_returns :
  ~ (exists fuel r st, run reg_two clock0 fuel full_chan [] = (Ret r, st)).
Proof.
  intros (fuel & r & st & H).
  destruct fuel as [|fuel]; vm_compute in H; discriminate.
Qed.

(** C9 (amended): if the iterator yields the sentinel at index [k], the pass
    neither draws past the first sentinel nor waits for device arrivals:
    running it longer changes nothing, and it has returned (after at most
    [k+1] iterator calls when it returns [Ok]) unless it is suspended in a
    send waiting for queue capacity, or a property had a type the code does
    not check (undefined). *)
Theorem start_monitoring_one_shot reg clock fuel ch cs k :
  iterator_next reg k = 0 -> (k < fuel)%nat ->
  fst (run reg clock fuel ch cs) <> NoFuel /\
  (forall fuel', (fuel <= fuel')%nat ->
     run reg clock fuel' ch cs = run reg clock fuel ch cs) /\
  (fst (run reg clock fuel ch cs) = Blocked ->
     exists pre info, sent (snd (run reg clock fuel ch cs)) = pre ++ [(info, Waiting)]) /\
  (fst (run reg clock fuel ch cs) = Ret (Ok tt) ->
     (next_calls (snd (run reg clock fuel ch cs)) <= S k)%nat /\
     iterator_next reg (pred (next_calls (snd (run reg clock fuel ch cs)))) = 0).
Proof.
  intros Hk Hf.
  assert (HT := loop_total reg clock fuel (loop_start ch cs) k Hk Hf).
  split; [|split; [|split]].
  - rewrite run_unfold.
    destruct (matching_ok reg); [|discriminate].
    destruct (get_services_kr reg =? 0); [|discriminate].
    destruct (monitor_loop reg clock fuel (loop_start ch cs)) as [[] s];
      simpl in *; congruence.
  - intros fuel' Hle. rewrite !run_unfold.
    rewrite (loop_stable _ _ _ _ HT fuel' Hle). reflexivity.
  - rewrite run_unfold.
    destruct (matching_ok reg); [|discriminate].
    destruct (get_services_kr reg =? 0); [|discriminate].
    intro HB. pose proof (loop_blocked reg clock fuel (loop_start ch cs)) as LB.
    destruct (monitor_loop reg clock fuel (loop_start ch cs)) as [[] s];
      simpl in *; try discriminate. apply LB. reflexivity.
  - rewrite run_unfold.
    destruct (matching_ok reg); [|discriminate].
    destruct (get_services_kr reg =? 0); [|discriminate].
    intro HR.
    destruct (monitor_loop reg clock fuel (loop_start ch cs)) as [r s] eqn:E;
      destruct r; simpl in HR; try discriminate.
    destruct (loop_ret _ _ _ _ _ _ E) as (n & _ & Hz & Hnz & Hc & _).
    simpl in *. rewrite Hc. split.
    + destruct (Nat.le_gt_cases n k) as [Hle|Hgt]; [lia|].
      exfalso. apply (Hnz k Hgt). exact Hk.
    + replace (pred (n + 1)) with n by lia. exact Hz.
Qed.

Lemma start_monitoring_one_shot_witness :
  fst (run reg_ab clock0 3 (mkChan 8 [] true) []) <> NoFuel.
Proof.
  apply (start_monitoring_one_shot reg_ab clock0 3 (mkChan 8 [] true) [] 2%nat).
  - reflexivity.
  - lia.
Defined.

Lemma map_tl_comm {A B} (f : A -> B) (l : list A) : map f (tl l) = tl (map f l).
Proof. destruct l; reflexivity. Qed.

Lemma chan_send_erase v1 v2 cs : forall c1 c2,
  erase_ts v1 = erase_ts v2 -> erase_chan c1 = erase_chan c2 ->
  fst (fst (chan_send v1 c1 cs)) = fst (fst (chan_send v2 c2 cs)) /\
  erase_chan (snd (fst (chan_send v1 c1 cs))) =
    erase_chan (snd (fst (chan_send v2 c2 cs))) /\
  snd (chan_send v1 c1 cs) = snd (chan_send v2 c2 cs).
Proof.
  induction cs as [|a cs IH]; intros [cap1 q1 o1] [cap2 q2 o2] Hv Hc;
    unfold erase_chan in Hc; simpl in Hc; injection Hc as <- Hq <-.
  all: assert (Hl : List.length q1 = List.length q2)
         by (rewrite <- (length_map erase_ts q1), Hq; apply length_map).
  all: simpl; destruct o1; simpl;
    [|unfold erase_chan; simpl; rewrite Hq; auto]; rewrite Hl.
  all: destruct (Nat.ltb (List.length q2) cap1); simpl.
  1, 3: unfold erase_chan; simpl; rewrite !map_app, Hq; simpl; rewrite Hv; auto.
  - unfold erase_chan; simpl; rewrite Hq; auto.
  - destruct a; apply IH; auto; unfold erase_chan; simpl.
    + rewrite !map_tl_comm, Hq. reflexivity.
    + rewrite Hq. reflexivity.
Qed.

Lemma expected_info_erase reg1 reg2 d t1 t2 :
  regs_agree reg1 reg2 ->
  erase_ts (expected_info reg1 d t1) = erase_ts (expected_info reg2 d t2).
Proof.
  intros (_ & _ & _ & Hn & Hp).
  unfold expected_info, u16_value, string_value, erase_ts. simpl.
  rewrite Hn, !Hp. reflexivity.
Qed.

Lemma process_related reg1 reg2 clock1 clock2 d s1 s2 :
  regs_agree reg1 reg2 -> same_up_to_ts s1 s2 ->
  fst (process_device reg1 clock1 d s1) = fst (process_device reg2 clock2 d s2) /\
  same_up_to_ts (snd (process_device reg1 clock1 d s1))
                (snd (process_device reg2 clock2 d s2)).
Proof.
  intros Ha Hs.
  assert (Hok : device_props_ok reg1 d = device_props_ok reg2 d).
  { destruct Ha as (_ & _ & _ & _ & Hp). unfold device_props_ok. rewrite !Hp. reflexivity. }
  destruct (process_spec reg1 clock1 d s1) as [N1 P1].
  destruct (process_spec reg2 clock2 d s2) as [N2 P2].
  rewrite Hok in P1.
  destruct Hs as (Hse & Hch & Hco & Hn & Hcl).
  destruct (device_props_ok reg2 d).
  - pose proof (expected_info_erase reg1 reg2 d (clock1 (clock_calls s1))
                  (clock2 (clock_calls s2)) Ha) as He.
    destruct (chan_send_erase _ _ (consumer s1) (chan s1) (chan s2) He Hch)
      as (E1 & E2 & E3).
    cbv zeta in P1, P2.
    rewrite Hco in E1, E2, E3, P1.
    destruct (chan_send (expected_info reg1 d (clock1 (clock_calls s1))) (chan s1)
                (consumer s2)) as [[st1 ch1] cs1].
    destruct (chan_send (expected_info reg2 d (clock2 (clock_calls s2))) (chan s2)
                (consumer s2)) as [[st2 ch2] cs2].
    simpl in E1, E2, E3. subst st2 cs2.
    destruct P1 as (S1 & C1 & K1 & L1 & R1 & _).
    destruct P2 as (S2 & C2 & K2 & L2 & R2 & _).
    split; [rewrite R1, R2; reflexivity|].
    unfold same_up_to_ts. rewrite S1, S2, C1, C2, K1, K2, L1, L2, N1, N2.
    unfold erase_sent in *. rewrite !map_app, Hse. simpl. rewrite He.
    repeat split; auto.
  - destruct P1 as (R1 & F1), P2 as (R2 & F2).
    split; [rewrite R1, R2; reflexivity|].
    destruct F1 as (A1 & B1 & C1 & D1 & E1), F2 as (A2 & B2 & C2 & D2 & E2).
    unfold same_up_to_ts. rewrite A1, A2, B1, B2, C1, C2, D1, D2, E1, E2.
    repeat split; auto.
Qed.

Lemma loop_related reg1 reg2 clock1 clock2 fuel : forall s1 s2,
  regs_agree reg1 reg2 -> same_up_to_ts s1 s2 ->
  fst (monitor_loop reg1 clock1 fuel s1) = fst (monitor_loop reg2 clock2 fuel s2) /\
  same_up_to_ts (snd (monitor_loop reg1 clock1 fuel s1))
                (snd (monitor_loop reg2 clock2 fuel s2)).
Proof.
  induction fuel as [|fuel IH]; intros s1 s2 Ha Hs; [split; [reflexivity|exact Hs]|].
  rewrite !monitor_loop_S. cbv zeta.
  destruct Hs as (Hse & Hch & Hco & Hn & Hcl).
  assert (Hd : iterator_next reg1 (next_calls s1) = iterator_next reg2 (next_calls s2)).
  { destruct Ha as (_ & _ & Hi & _). rewrite Hn. apply Hi. }
  rewrite Hd.
  destruct (iterator_next reg2 (next_calls s2) =? 0).
  - split; [reflexivity|]. unfold same_up_to_ts; simpl. rewrite Hn. auto.
  - set (d := iterator_next reg2 (next_calls s2)).
    set (t1 := mkSt (ops s1 ++ [Acquire (RDevice d)]) (sent s1) (chan s1)
                    (consumer s1) (S (next_calls s1)) (clock_calls s1)).
    set (t2 := mkSt (ops s2 ++ [Acquire (RDevice d)]) (sent s2) (chan s2)
                    (consumer s2) (S (next_calls s2)) (clock_calls s2)).
    assert (Ht : same_up_to_ts t1 t2)
      by (unfold same_up_to_ts; simpl; rewrite Hn; auto).
    destruct (process_related reg1 reg2 clock1 clock2 d t1 t2 Ha Ht) as [R S].
    destruct (process_device reg1 clock1 d t1) as [r1 u1].
    destruct (process_device reg2 clock2 d t2) as [r2 u2].
    simpl in R, S. subst r2.
    destruct r1; simpl; auto.
Qed.

(** C10: two passes over the same registry answers, with the same channel
    and consumer behaviour but different clocks, return the same result and
    send the same sequence of events, timestamps apart. *)
Theorem start_monitoring_deterministic reg1 reg2 clock1 clock2 fuel ch cs :
  matching_ok reg1 = matching_ok reg2 ->
  get_services_kr reg1 = get_services_kr reg2 ->
  (forall k, iterator_next reg1 k = iterator_next reg2 k) ->
  (forall d, entry_name reg1 d = entry_name reg2 d) ->
  (forall d key, entry_property reg1 d key = entry_property reg2 d key) ->
  fst (run reg1 clock1 fuel ch cs) = fst (run reg2 clock2 fuel ch cs) /\
  erase_sent (sent (snd (run reg1 clock1 fuel ch cs))) =
    erase_sent (sent (snd (run reg2 clock2 fuel ch cs))).
Proof.
  intros Hm Hk Hi Hn Hp.
  assert (Ha : regs_agree reg1 reg2) by (repeat split; assumption).
  rewrite !run_unfold, Hm, Hk.
  destruct (matching_ok reg2); [|auto].
  destruct (get_services_kr reg2 =? 0); [|auto].
  destruct (loop_related reg1 reg2 clock1 clock2 fuel (loop_start ch cs)
              (loop_start ch cs) Ha) as [R (S & _)];
    [repeat split|].
  destruct (monitor_loop reg1 clock1 fuel (loop_start ch cs)) as [r1 u1].
  destruct (monitor_loop reg2 clock2 fuel (loop_start ch cs)) as [r2 u2].
  simpl in R, S. subst r2. destruct r1; simpl; auto.
Qed.

Lemma start_monitoring_deterministic_witness :
  fst (run reg_ab clock0 5 (mkChan 8 [] true) []) =
    fst (run reg_ab (fun k => 1000 + Z.of_nat k) 5 (mkChan 8 [] true) []) /\
  erase_sent (sent (snd (run reg_ab clock0 5 (mkChan 8 [] true) []))) =
    erase_sent (sent (snd (run reg_ab (fun k => 1000 + Z.of_nat k) 5
                                 (mkChan 8 [] true) []))).
Proof.
  apply start_monitoring_deterministic; reflexivity.
Defined.


(* ------------------------------------------------------------------------- *)
(** ** Further properties of the watcher *)

Lemma hex_value_char d : (d < 16)%N -> hex_value (hex_char d) = Some d.
Proof.
  intro H.
  assert (d = 0 \/ d = 1 \/ d = 2 \/ d = 3 \/ d = 4 \/ d = 5 \/ d = 6 \/ d = 7 \/
          d = 8 \/ d = 9 \/ d = 10 \/ d = 11 \/ d = 12 \/ d = 13 \/ d = 14 \/
          d = 15)%N as Hd by lia.
  repeat (destruct Hd as [->|Hd]; [reflexivity|]); subst; reflexivity.
Qed.

Lemma parse_lower_hex_aux f : forall n acc a,
  (n < 16 ^ N.of_nat f)%N ->
  exists m, parse_hex_from a (lower_hex_aux f n acc) =
            parse_hex_from (a * 16 ^ m + n)%N acc.
Proof.
  induction f as [|f IH]; intros n acc a H.
  - simpl in H. exists 0%N. simpl. replace n with 0%N by lia.
    f_equal. lia.
  - simpl. assert (Hm : (n mod 16 < 16)%N) by (apply N.mod_lt; discriminate).
    destruct (n <? 16)%N eqn:Hlt.
    + apply N.ltb_lt in Hlt. exists 1%N. simpl.
      rewrite hex_value_char by exact Hm.
      rewrite N.mod_small by exact Hlt. try (f_equal; lia).
    + destruct (IH (n / 16)%N (String (hex_char (n mod 16)) acc) a) as [m E].
      * apply N.Div0.div_lt_upper_bound.
        replace (N.of_nat (S f)) with (N.succ (N.of_nat f)) in H by lia.
        rewrite N.pow_succ_r' in H. lia.
      * exists (N.succ m). rewrite E. simpl. rewrite hex_value_char by exact Hm.
        f_equal. rewrite N.pow_succ_r'.
        rewrite (N.div_mod n 16) at 3 by discriminate. ring.
Qed.

Lemma size_nat_bound n : (n < 2 ^ N.of_nat (N.size_nat n))%N.
Proof.
  destruct n as [|p]; [reflexivity|]. simpl.
  induction p as [p IH|p IH|]; simpl Pos.size_nat; [| |reflexivity];
    replace (N.of_nat (S (Pos.size_nat p))) with (N.succ (N.of_nat (Pos.size_nat p)))
      by lia; rewrite N.pow_succ_r'; lia.
Qed.

Lemma parse_zeros k s : parse_hex_from 0 (zeros k ++ s) = parse_hex_from 0 s.
Proof. induction k as [|k IH]; [reflexivity|exact IH]. Qed.

(** [format!("{:04x}", id)] of a [u16] reads back as [id]. *)
Lemma parse_fmt_04x id : 0 <= id < 65536 -> parse_hex (fmt_04x id) = Some (Z.to_N id).
Proof.
  intro H.
  assert (Hne : fmt_04x id <> EmptyString).
  { intro E. pose proof (fmt_04x_hex4 id H) as H4. rewrite E in H4. discriminate. }
  transitivity (parse_hex_from 0 (fmt_04x id)).
  { destruct (fmt_04x id); [congruence|reflexivity]. }
  unfold fmt_04x, pad_zeros. rewrite parse_zeros. unfold lower_hex.
  set (n := Z.to_N id).
  destruct (parse_lower_hex_aux (S (N.size_nat n)) n EmptyString 0) as [m ->].
  - apply (N.lt_le_trans _ _ _ (size_nat_bound n)).
    apply (N.le_trans _ (16 ^ N.of_nat (N.size_nat n))).
    + apply N.pow_le_mono_l. lia.
    + apply N.pow_le_mono_r; lia.
  - simpl. try (f_equal; lia).
Qed.


(** Both property helpers, on every path with defined behaviour, touch
    nothing but native references, and release every reference they
    acquire (the key CFString and the property) exactly once, in scope. *)
Theorem property_helpers_scoped reg d name s :
  (fst (get_device_property_u16 reg d name s) <> Fault ->
   frame s (snd (get_device_property_u16 reg d name s)) /\
   exists l, ops (snd (get_device_property_u16 reg d name s)) = ops s ++ l /\
     Nested l /\ forall r, acquires r l = releases r l) /\
  (fst (get_device_property_string reg d name s) <> Fault ->
   frame s (snd (get_device_property_string reg d name s)) /\
   exists l, ops (snd (get_device_property_string reg d name s)) = ops s ++ l /\
     Nested l /\ forall r, acquires r l = releases r l).
Proof.
  split; intro Hf.
  - destruct (u16_spec reg d name s) as (Fr & _ & L).
    destruct (L Hf) as (l & E & N). split; [exact Fr|].
    exists l. split; [exact E|]. split; [exact N|]. apply nested_counts, N.
  - destruct (string_spec reg d name s) as (Fr & _ & L).
    destruct (L Hf) as (l & E & N). split; [exact Fr|].
    exists l. split; [exact E|]. split; [exact N|]. apply nested_counts, N.
Qed.

Lemma property_helpers_scoped_witness :
  (frame (init_state closed_chan [])
     (snd (get_device_property_u16 reg_ab 1 (c_literal "idVendor")
             (init_state closed_chan []))) /\
   exists l, ops (snd (get_device_property_u16 reg_ab 1 (c_literal "idVendor")
                         (init_state closed_chan []))) =
               ops (init_state closed_chan []) ++ l /\
     Nested l /\ forall r, acquires r l = releases r l).
Proof.
  destruct (property_helpers_scoped reg_ab 1 (c_literal "idVendor")
              (init_state closed_chan [])) as (H & _).
  apply H. vm_compute. discriminate.
Defined.

(** The name of every sent event is the registry name of its record, or
    "Unknown USB Device" when [IORegistryEntryGetName] fails. *)
Theorem start_monitoring_device_name reg clock fuel ch cs :
  Forall (fun p => exists d,
    device_handle (fst p) = Macos (fmt_unsigned d) /\
    device_name (fst p) =
      match entry_name reg d with
      | Some n => n
      | None => "Unknown USB Device"%string
      end)
    (sent (snd (run reg clock fuel ch cs))).
Proof.
  eapply Forall_impl; [|apply run_sent_events].
  intros p (d & now & ->). exists d. split; reflexivity.
Qed.

(** The serial number of every sent event is the text of the record's
    "USB Serial Number" property when that is a non-empty CFString, and
    absent otherwise. *)
Theorem start_monitoring_serial_number reg clock fuel ch cs :
  Forall (fun p => exists d,
    device_handle (fst p) = Macos (fmt_unsigned d) /\
    (forall t, serial_number (fst p) = Some t <->
       entry_property reg d "USB Serial Number" = Some (CFString t) /\
       t <> EmptyString))
    (sent (snd (run reg clock fuel ch cs))).
Proof.
  eapply Forall_impl; [|apply run_sent_events].
  intros p (d & now & ->). exists d. split; [reflexivity|].
  intro t. simpl. unfold string_value.
  destruct (entry_property reg d "USB Serial Number") as [[z|u|]|];
    try (split; [discriminate|intros [H _]; discriminate]).
  destruct (String.eqb_spec u EmptyString) as [->|Hu].
  - split; [discriminate|intros [H Ht]; injection H as <-; contradiction].
  - split.
    + intro H. injection H as <-. auto.
    + intros [H _]. injection H as <-. reflexivity.
Qed.

(** The vendor and product identifiers of every sent event read back (as
    hexadecimal) as the [u16] that [CFNumberGetValue] stored, that is the
    record's number modulo 2^16, whenever the property is a number that
    fits a signed 16-bit integer. *)
Theorem start_monitoring_ids_read_back reg clock fuel ch cs :
  Forall (fun p => exists d,
    device_handle (fst p) = Macos (fmt_unsigned d) /\
    (forall z, entry_property reg d "idVendor" = Some (CFNumber z) ->
       fits_sint16 z = true ->
       parse_hex (vendor_id (fst p)) = Some (Z.to_N (z mod 65536))) /\
    (forall z, entry_property reg d "idProduct" = Some (CFNumber z) ->
       fits_sint16 z = true ->
       parse_hex (product_id (fst p)) = Some (Z.to_N (z mod 65536))))
    (sent (snd (run reg clock fuel ch cs))).
Proof.
  eapply Forall_impl; [|apply run_sent_events].
  intros p (d & now & ->). exists d. split; [reflexivity|].
  simpl. unfold u16_value.
  split; intros z Hz Hf; rewrite Hz, Hf; simpl;
    apply parse_fmt_04x, Z.mod_pos_bound; lia.
Qed.

Lemma process_ts reg clock d s :
  clock_calls s = List.length (sent s) ->
  map (fun p => timestamp (fst p)) (sent s) = map clock (seq 0 (List.length (sent s))) ->
  let s' := snd (process_device reg clock d s) in
  clock_calls s' = List.length (sent s') /\
  map (fun p => timestamp (fst p)) (sent s') = map clock (seq 0 (List.length (sent s'))).
Proof.
  intros Hc Ht. cbv zeta.
  destruct (process_spec reg clock d s) as [_ P].
  destruct (device_props_ok reg d).
  - cbv zeta in P.
    destruct (chan_send (expected_info reg d (clock (clock_calls s))) (chan s)
                (consumer s)) as [[st ch] cs].
    destruct P as (Ps & _ & _ & Pc & _).
    rewrite Ps, Pc, length_app, Hc. simpl. split; [lia|].
    rewrite Nat.add_1_r, seq_S, !map_app, Ht. reflexivity.
  - destruct P as (_ & Ps & _ & _ & _ & Pc). rewrite Ps, Pc. auto.
Qed.

Lemma loop_ts reg clock fuel : forall s,
  clock_calls s = List.length (sent s) ->
  map (fun p => timestamp (fst p)) (sent s) = map clock (seq 0 (List.length (sent s))) ->
  let s' := snd (monitor_loop reg clock fuel s) in
  clock_calls s' = List.length (sent s') /\
  map (fun p => timestamp (fst p)) (sent s') = map clock (seq 0 (List.length (sent s'))).
Proof.
  induction fuel as [|fuel IH]; intros s Hc Ht; [auto|].
  cbv zeta. rewrite monitor_loop_S. cbv zeta.
  destruct (iterator_next reg (next_calls s) =? 0); [simpl; auto|].
  set (d := iterator_next reg (next_calls s)).
  set (s2 := mkSt _ _ _ _ _ _).
  assert (H := process_ts reg clock d s2 Hc Ht). cbv zeta in H.
  destruct (process_device reg clock d s2) as [r3 s3]. simpl in H.
  destruct H as [H1 H2].
  destruct r3; simpl; auto.
Qed.

(** Every sent event is stamped by its own [Utc::now] call, in order: the
    [j]-th event carries the [j]-th reading of the clock. *)
Theorem start_monitoring_timestamps reg clock fuel ch cs :
  map (fun p => timestamp (fst p)) (sent (snd (run reg clock fuel ch cs))) =
  map clock (seq 0 (List.length (sent (snd (run reg clock fuel ch cs))))).
Proof.
  rewrite run_unfold.
  destruct (matching_ok reg); [|reflexivity].
  destruct (get_services_kr reg =? 0); [|reflexivity].
  destruct (loop_ts reg clock fuel (loop_start ch cs) eq_refl eq_refl) as [_ H].
  destruct (monitor_loop reg clock fuel (loop_start ch cs)) as [[] s]; exact H.
Qed.





(** When the iterator is empty, the pass sends nothing, leaves the channel
    and the consumer untouched, calls [IOIteratorNext] once, and releases
    the matching dictionary and the iterator it acquired. *)
Theorem start_monitoring_no_devices reg clock fuel ch cs :
  matching_ok reg = true -> get_services_kr reg = 0 ->
  iterator_next reg 0 = 0 -> (0 < fuel)%nat ->
  run reg clock fuel ch cs =
    (Ret (Ok tt),
     mkSt [Acquire RMatchingDict; Release RMatchingDict;
           Acquire RIterator; Release RIterator] [] ch cs 1 0).
Proof.
  intros Hm Hkr Hz Hf.
  rewrite run_unfold, Hm, Hkr. simpl.
  destruct fuel as [|fuel]; [lia|].
  rewrite monitor_loop_S. simpl. rewrite Hz. reflexivity.
Qed.

Lemma start_monitoring_no_devices_witness :
  run (mkRegistry true 0 (fun _ => 0) (fun _ => None) (fun _ _ => None))
      clock0 1 (mkChan 4 [] true) [Recv] =
    (Ret (Ok tt),
     mkSt [Acquire RMatchingDict; Release RMatchingDict;
           Acquire RIterator; Release RIterator] [] (mkChan 4 [] true) [Recv] 1 0).
Proof.
  apply start_monitoring_no_devices; try reflexivity. lia.
Defined.

(** The [device_id] strings of the events of a pass that returns [Ok] are
    pairwise distinct whenever the iterator handed out distinct handles
    (an [io_object_t] is unsigned). *)
Theorem start_monitoring_distinct_device_ids reg clock fuel ch cs st :
  run reg clock fuel ch cs = (Ret (Ok tt), st) ->
  (forall j, 0 <= iterator_next reg j) ->
  NoDup (map (iterator_next reg) (seq 0 (pred (next_calls st)))) ->
  NoDup (map (fun p => device_handle (fst p)) (sent st)).
Proof.
  intros Hr Hnn Hnd.
  rewrite run_unfold in Hr.
  destruct (matching_ok reg); [|discriminate].
  destruct (get_services_kr reg =? 0); [|discriminate].
  destruct (monitor_loop reg clock fuel (loop_start ch cs)) as [r s] eqn:E.
  destruct r; try discriminate. injection Hr as <-. simpl in Hnd |- *.
  destruct (loop_ret _ _ _ _ _ _ E) as (n & _ & _ & _ & Hn & _ & new & Sn & Mn & _).
  simpl in Hn, Sn, Mn. rewrite Hn in Hnd. rewrite Sn, Mn.
  replace (pred (n + 1)) with n in Hnd by lia.
  rewrite <- (map_map (iterator_next reg) (fun x => Macos (fmt_unsigned x))).
  apply NoDup_map_NoDup_ForallPairs; [|exact Hnd].
  intros x y Hx Hy Hxy. injection Hxy as Hxy.
  apply in_map_iff in Hx as (i & <- & _). apply in_map_iff in Hy as (k & <- & _).
  apply fmt_unsigned_inj; auto.
Qed.

Lemma start_monitoring_distinct_device_ids_witness :
  NoDup (map (fun p => device_handle (fst p))
           (sent (snd (run reg_ab clock0 3 (mkChan 8 [] true) [])))).
Proof.
  apply (start_monitoring_distinct_device_ids reg_ab clock0 3 (mkChan 8 [] true) []
           (snd (run reg_ab clock0 3 (mkChan 8 [] true) []))).
  - vm_compute. reflexivity.
  - intro j. unfold reg_ab; simpl. destruct j as [|[|j]]; lia.
  - vm_compute. constructor; [intros [H|[]]; discriminate|].
    constructor; [intros []|constructor].
Defined.
